(** * Setup-Demo: a shallow embedding of the hero service

    Sources: [app/main.py] (the [Hero] table, the routes [get] and
    [create_hero], the [lifespan] hook) and [app/database.py]
    ([create_db_and_tables], [get_session]).

    The framework collaborators the code configures are modelled at the
    level the code relies on them:
    - [SQLModel.metadata.create_all] creates the tables that are missing
      (SQLAlchemy's [checkfirst=True] default);
    - a [Session] keeps the objects it tracks in an identity map; [add]
      stages an object, [commit] inserts the staged objects in one
      transaction (the primary key of a row whose [id] is [None] comes from
      the table's SERIAL sequence and is written back into the object), and
      [refresh] reloads the object from its row;
    - FastAPI validates the declared parameters before calling a handler
      ([name: str] is a required query parameter) and drives the [yield]
      dependency [get_session] around the handler;
    - the [lifespan] context manager runs up to its [yield] before the
      server accepts requests;
    - PostgreSQL through psycopg2: a string parameter holding NUL is
      refused, the SERIAL key of the [INTEGER] column has an int4 sequence,
      and values taken by [nextval] are not given back on rollback. *)

From Stdlib Require Import String Ascii List ZArith Lia Bool.
Set Warnings "-register-all".
Import ListNotations.
Open Scope Z_scope.
Open Scope string_scope.

(** ** The [Hero] table (main.py, lines 17-21) *)

Record Hero := mkHero {
  id : option Z;            (* int | None, primary key, default None *)
  name : string;            (* str, index=True *)
  age : option Z;           (* int | None, default None, index=True *)
  secret_name : string      (* str *)
}.

(** [Hero(name=name, secret_name=...)]: the fields not passed keep their
    defaults, [None]. *)
Definition Hero_new (name0 secret0 : string) : Hero :=
  mkHero None name0 None secret0.

Definition set_id (h : Hero) (i : Z) : Hero :=
  mkHero (Some i) (name h) (age h) (secret_name h).

(** The stored [hero] table: its rows and the next value of the SERIAL
    sequence behind the primary key. *)
Record HeroTable := mkTable {
  rows : list Hero;
  seq : Z
}.

Definition empty_table : HeroTable := mkTable [] 1.

(** The database: the [hero] table exists or not. *)
Record Db := mkDb {
  hero_table : option HeroTable
}.

(** ** [create_db_and_tables] (database.py, lines 10-11) *)

(** [SQLModel.metadata.create_all(engine)]: create the [hero] table when it
    is missing, leave an existing one as it is. *)
Definition create_all (db : Db) : Db :=
  match hero_table db with
  | Some t => db
  | None => mkDb (Some empty_table)
  end.

Definition create_db_and_tables (db : Db) : Db := create_all db.

(** ** Storage errors and the session *)

Inductive StorageError :=
  | NoSuchTable                (* relation "hero" does not exist *)
  | UniqueViolation (i : Z)    (* duplicate primary key *)
  | NulCharacter               (* psycopg2: a string parameter holds NUL *)
  | SequenceExhausted          (* nextval: the int4 sequence is at its maximum *)
  | ObjectNotPersistent.       (* refresh of an object with no row *)

(** PostgreSQL text cannot hold the character NUL; psycopg2 refuses such a
    string parameter before the statement is sent. *)
Definition NUL : Ascii.ascii := Ascii.zero.

Fixpoint has_char (c : Ascii.ascii) (s : string) : bool :=
  match s with
  | EmptyString => false
  | String x s' => Ascii.eqb x c || has_char c s'
  end.

(** [id: int | None] is an [INTEGER] column, so its SERIAL sequence is an
    int4 sequence: [nextval] fails beyond this value. *)
Definition int4_max : Z := 2147483647.

(** A session: the database it works on, the objects it tracks (a
    reference is an index into [objs]) and the references staged by
    [add]. *)
Record Session := mkSession {
  sdb : Db;
  objs : list Hero;
  pending : list nat
}.

Definition open_session (db : Db) : Session := mkSession db [] [].

(** The session monad: an action ends with a value or a storage error,
    and always with a session state (a failed action keeps what was
    committed before it). *)
Definition M (A : Type) := Session -> (StorageError + A) * Session.

Definition ret {A} (x : A) : M A := fun s => (inr x, s).
Definition bind {A B} (m : M A) (k : A -> M B) : M B :=
  fun s => match m s with
           | (inl e, s') => (inl e, s')
           | (inr x, s') => k x s'
           end.
Definition fail {A} (e : StorageError) : M A := fun s => (inl e, s).

Notation "x <- m ;; k" := (bind m (fun x => k))
  (at level 61, m at next level, right associativity).
Notation "m ;;; k" := (bind m (fun _ => k))
  (at level 61, right associativity).

(** Overwrite the tracked object [r] (Python mutates it in place). *)
Fixpoint replace_nth {A} (l : list A) (n : nat) (x : A) : list A :=
  match l, n with
  | [], _ => []
  | _ :: t, O => x :: t
  | y :: t, S n' => y :: replace_nth t n' x
  end.

(** The object is constructed: the session does not know it yet, but the
    model keeps every Python object the handler uses in [objs]. *)
Definition new_obj (h : Hero) : M nat :=
  fun s => (inr (length (objs s)),
            mkSession (sdb s) (objs s ++ [h]) (pending s)).

Definition get_obj (r : nat) : M Hero :=
  fun s => match nth_error (objs s) r with
           | Some h => (inr h, s)
           | None => (inl ObjectNotPersistent, s)
           end.

(** [session.add(obj)] *)
Definition session_add (r : nat) : M unit :=
  fun s => (inr tt, mkSession (sdb s) (objs s) (pending s ++ [r])).

Definition id_used (t : HeroTable) (i : Z) : bool :=
  existsb (fun h => match id h with Some j => Z.eqb j i | None => false end)
          (rows t).

(** INSERT of one object.  A string parameter holding NUL is refused by
    the driver before anything is sent.  An object without an [id] takes
    [nextval] of the sequence, which fails past [int4_max]; a primary key
    already present is a unique violation.  A failure carries the table as
    it stands then: a value taken by [nextval] stays taken. *)
Definition insert_row (t : HeroTable) (h : Hero)
  : (StorageError * HeroTable) + (HeroTable * Hero) :=
  if has_char NUL (name h) || has_char NUL (secret_name h) then inl (NulCharacter, t)
  else
    match id h with
    | Some i =>
        if id_used t i then inl (UniqueViolation i, t)
        else inr (mkTable (rows t ++ [set_id h i]) (seq t), set_id h i)
    | None =>
        if Z.ltb int4_max (seq t) then inl (SequenceExhausted, t)
        else
          let i := seq t in
          if id_used t i then inl (UniqueViolation i, mkTable (rows t) (seq t + 1))
          else let h' := set_id h i in inr (mkTable (rows t ++ [h']) (seq t + 1), h')
    end.

(** Flush the staged objects in order, writing the assigned keys back into
    the tracked objects. *)
Fixpoint flush (t : HeroTable) (os : list Hero) (ps : list nat)
  : (StorageError * HeroTable) + (HeroTable * list Hero) :=
  match ps with
  | [] => inr (t, os)
  | r :: ps' =>
      match nth_error os r with
      | None => inl (ObjectNotPersistent, t)
      | Some h =>
          match insert_row t h with
          | inl e => inl e
          | inr (t', h') => flush t' (replace_nth os r h') ps'
          end
      end
  end.

(** [session.commit()]: the flush is one transaction; on failure it is
    rolled back, so the rows are unchanged, but the sequence keeps the
    values [nextval] handed out (sequences are not transactional). *)
Definition session_commit : M unit :=
  fun s =>
    match hero_table (sdb s) with
    | None =>
        match pending s with
        | [] => (inr tt, s)
        | _ :: _ => (inl NoSuchTable, s)
        end
    | Some t =>
        match flush t (objs s) (pending s) with
        | inl (e, t_err) =>
            (inl e, mkSession (mkDb (Some (mkTable (rows t) (seq t_err))))
                              (objs s) (pending s))
        | inr (t', os') => (inr tt, mkSession (mkDb (Some t')) os' [])
        end
    end.

Fixpoint find_row (l : list Hero) (i : Z) : option Hero :=
  match l with
  | [] => None
  | h :: t => match id h with
              | Some j => if Z.eqb j i then Some h else find_row t i
              | None => find_row t i
              end
  end.

(** [session.refresh(obj)]: reload the object from its row. *)
Definition session_refresh (r : nat) : M unit :=
  fun s =>
    match nth_error (objs s) r, hero_table (sdb s) with
    | Some h, Some t =>
        match id h with
        | Some i =>
            match find_row (rows t) i with
            | Some row => (inr tt, mkSession (sdb s) (replace_nth (objs s) r row)
                                             (pending s))
            | None => (inl ObjectNotPersistent, s)
            end
        | None => (inl ObjectNotPersistent, s)
        end
    | _, _ => (inl ObjectNotPersistent, s)
    end.

(** ** [create_hero] (main.py, lines 29-35) *)

Definition create_hero (name0 : string) : M Hero :=
  hero <- new_obj (Hero_new name0 ("secrete_" ++ name0)) ;;
  session_add hero ;;;
  session_commit ;;;
  session_refresh hero ;;;
  get_obj hero.

Definition run_create_hero (name0 : string) (db : Db) : (StorageError + Hero) * Db :=
  let '(r, s) := create_hero name0 (open_session db) in (r, sdb s).

Example create_hero_spiderboy :
  run_create_hero "Spiderboy" (mkDb (Some empty_table))
  = (inr (mkHero (Some 1) "Spiderboy" None "secrete_Spiderboy"),
     mkDb (Some (mkTable [mkHero (Some 1) "Spiderboy" None "secrete_Spiderboy"] 2))).
Proof. reflexivity. Qed.

(** ** The HTTP layer *)

Inductive Json :=
  | JNull
  | JInt (z : Z)
  | JStr (s : string)
  | JObj (fields : list (string * Json)).

Definition json_opt_int (o : option Z) : Json :=
  match o with Some z => JInt z | None => JNull end.

(** The response model of a [Hero] (framework-default serialization). *)
Definition hero_json (h : Hero) : Json :=
  JObj [("id", json_opt_int (id h)); ("name", JStr (name h));
        ("age", json_opt_int (age h)); ("secret_name", JStr (secret_name h))].

Inductive Response :=
  | Ok200 (body : Json)
  | Unprocessable422            (* RequestValidationError *)
  | ServerError500 (e : StorageError).

Inductive Request :=
  | GetRoot
  | PostHeroes (query : list (string * string)).

(** [GET /] (main.py, lines 25-27) *)
Definition get : Json := JObj [("message", JStr "Hello World Winnie")].

(** A scalar query parameter: every query value is a string, the last
    occurrence of the key wins (Starlette's query dictionary). *)
Fixpoint query_lookup (k : string) (q : list (string * string)) : option string :=
  match q with
  | [] => None
  | (k', v) :: q' =>
      match query_lookup k q' with
      | Some v' => Some v'
      | None => if String.eqb k k' then Some v else None
      end
  end.

(** ** The server *)

Inductive Phase := Stopped | SchemaEnsured | Serving.

Record Server := mkServer {
  phase : Phase;
  db : Db;
  open_sessions : nat;          (* sessions acquired and not yet closed *)
  schema_runs : nat             (* calls of [create_db_and_tables] *)
}.

Definition set_db (srv : Server) (d : Db) : Server :=
  mkServer (phase srv) d (open_sessions srv) (schema_runs srv).

Definition acquire (srv : Server) : Server :=
  mkServer (phase srv) (db srv) (S (open_sessions srv)) (schema_runs srv).

(** [Session.__exit__] closes the session. *)
Definition release (srv : Server) : Server :=
  mkServer (phase srv) (db srv) (pred (open_sessions srv)) (schema_runs srv).

(** [get_session] (database.py, lines 13-15): [with Session(engine) as
    session: yield session].  The body of the [with] block is whatever the
    request does with the session; it ends with a value or an exception of
    any type [R].  Leaving the [with] block, by return or by exception,
    closes the session; what the session committed stays in the
    database. *)
Definition get_session {R} (body : Session -> R * Session) (srv : Server)
  : R * Server :=
  let srv1 := acquire srv in
  let '(r, s') := body (open_session (db srv1)) in
  (r, release (set_db srv1 (sdb s'))).

(** FastAPI solves the [SessionDep] dependency, then validates the query
    parameters, then calls the handler, all inside the dependency's
    scope. *)
Definition post_heroes_body (q : list (string * string)) (s : Session)
  : Response * Session :=
  match query_lookup "name" q with
  | None => (Unprocessable422, s)
  | Some n =>
      match create_hero n s with
      | (inl e, s') => (ServerError500 e, s')
      | (inr h, s') => (Ok200 (hero_json h), s')
      end
  end.

Definition handle (req : Request) (srv : Server) : Response * Server :=
  match req with
  | GetRoot => (Ok200 get, srv)
  | PostHeroes q => get_session (post_heroes_body q) srv
  end.

(** [lifespan] (main.py, lines 7-12): [create_db_and_tables()] runs, then
    the context manager yields and the server begins accepting requests. *)
Inductive Event :=
  | EStartup
  | EBeginServing
  | ERequest (req : Request) (resp : Response).

Inductive step : Server -> Event -> Server -> Prop :=
  | step_startup srv :
      phase srv = Stopped ->
      step srv EStartup
        (mkServer SchemaEnsured (create_db_and_tables (db srv))
                  (open_sessions srv) (S (schema_runs srv)))
  | step_serve srv :
      phase srv = SchemaEnsured ->
      step srv EBeginServing
        (mkServer Serving (db srv) (open_sessions srv) (schema_runs srv))
  | step_request srv req resp srv' :
      phase srv = Serving ->
      handle req srv = (resp, srv') ->
      step srv (ERequest req resp) srv'.

Definition initial (d : Db) : Server := mkServer Stopped d 0 0.

Inductive reachable : Server -> Prop :=
  | reach_init d : reachable (initial d)
  | reach_step srv e srv' : reachable srv -> step srv e srv' -> reachable srv'.

(** ** Well-formed tables: every stored key came from the sequence. *)
Definition wf_table (t : HeroTable) : Prop :=
  forall h, In h (rows t) -> exists i, id h = Some i /\ i < seq t.

(** ** The connection string (database.py, lines 3-8) *)

(** The three values [get_settings()] supplies ([config.py] is not part of
    the sources; only these attributes are read). *)
Record Settings := mkSettings {
  db_username : string;
  db_password : string;
  db_name : string
}.

(** [f"postgresql://{settings.db_username}:{settings.db_password}@db:5432/{settings.db_name}"] *)
Definition database_url (st : Settings) : string :=
  "postgresql://" ++ db_username st ++ ":" ++ db_password st ++
  "@db:5432/" ++ db_name st.

(** ** Table invariants kept by the service *)

(** A row the creation path writes: its secret name is derived from its
    name and it has no age. *)
Definition derived_row (h : Hero) : Prop :=
  secret_name h = "secrete_" ++ name h /\ age h = None.

Definition table_inv (t : HeroTable) : Prop :=
  wf_table t /\ NoDup (map id (rows t)) /\ Forall derived_row (rows t).



(** The states a server started on the database [d0] goes through. *)
Inductive reachable_from (d0 : Db) : Server -> Prop :=
  | rf_init : reachable_from d0 (initial d0)
  | rf_step srv e srv' :
      reachable_from d0 srv -> step srv e srv' -> reachable_from d0 srv'.

(** ** Lemmas about the session *)

Lemma id_used_false_find_row (l : list Hero) (i : Z) (h : Hero) :
  id_used (mkTable l 0) i = false -> id h = Some i ->
  find_row (l ++ [h]) i = Some h.
Proof.
  unfold id_used; simpl. intros Hu Hi.
  induction l as [| x l IH]; simpl in *.
  - rewrite Hi, Z.eqb_refl. reflexivity.
  - apply orb_false_iff in Hu as [Hx Hl].
    destruct (id x) as [j|]; [rewrite Hx|]; apply IH; exact Hl.
Qed.

Lemma has_char_secrete (n : string) :
  has_char NUL ("secrete_" ++ n) = has_char NUL n.
Proof. reflexivity. Qed.

(** The result of [create_hero] on a fresh session, computed. *)
Lemma run_create_hero_eq (n : string) (d : Db) :
  run_create_hero n d =
  match hero_table d with
  | None => (inl NoSuchTable, d)
  | Some t =>
      if has_char NUL n then (inl NulCharacter, d)
      else if Z.ltb int4_max (seq t) then (inl SequenceExhausted, d)
      else if id_used t (seq t) then
        (inl (UniqueViolation (seq t)), mkDb (Some (mkTable (rows t) (seq t + 1))))
      else let h := mkHero (Some (seq t)) n None ("secrete_" ++ n) in
           (inr h, mkDb (Some (mkTable (rows t ++ [h]) (seq t + 1))))
  end.
Proof.
  destruct d as [[t|]]; [|reflexivity].
  destruct t as [l sq]. cbn [hero_table seq rows].
  unfold run_create_hero, create_hero, bind, new_obj, session_add,
    session_commit, session_refresh, get_obj, open_session, insert_row.
  simpl. unfold insert_row. simpl. rewrite ?has_char_secrete.
  destruct (has_char NUL n) eqn:Hn; simpl; [reflexivity|].
  destruct (Z.ltb int4_max sq) eqn:Hs; simpl; [reflexivity|].
  destruct (id_used (mkTable l sq) sq) eqn:Hu; simpl; [reflexivity|].
  rewrite (id_used_false_find_row l sq); [reflexivity| |reflexivity].
  exact Hu.
Qed.

Lemma wf_seq_unused (t : HeroTable) : wf_table t -> id_used t (seq t) = false.
Proof.
  intros Hwf. unfold id_used.
  destruct (existsb _ (rows t)) eqn:He; [|reflexivity].
  apply existsb_exists in He as [h [Hin Hh]].
  destruct (Hwf h Hin) as [i [Hi Hlt]]. rewrite Hi in Hh.
  apply Z.eqb_eq in Hh. lia.
Qed.

Lemma wf_insert (t : HeroTable) (h : Hero) :
  wf_table t -> id h = Some (seq t) ->
  wf_table (mkTable (rows t ++ [h]) (seq t + 1)).
Proof.
  intros Hwf Hh x Hx. simpl in *.
  apply in_app_or in Hx as [Hx | [<- | []]].
  - destruct (Hwf x Hx) as [i [Hi Hlt]]. exists i. split; [exact Hi | lia].
  - exists (seq t). split; [exact Hh | lia].
Qed.

Lemma create_all_wf (d : Db) :
  hero_table d = None ->
  exists t, hero_table (create_db_and_tables d) = Some t /\ wf_table t.
Proof.
  intros H. unfold create_db_and_tables, create_all. rewrite H.
  exists empty_table. split; [reflexivity|]. intros h [].
Qed.

(** [POST /heroes/] on a server, through the session dependency. *)
Lemma handle_post_eq (q : list (string * string)) (srv : Server) :
  handle (PostHeroes q) srv =
  match query_lookup "name" q with
  | None => (Unprocessable422, srv)
  | Some n =>
      match run_create_hero n (db srv) with
      | (inl e, d) => (ServerError500 e, set_db srv d)
      | (inr h, d) => (Ok200 (hero_json h), set_db srv d)
      end
  end.
Proof.
  destruct srv as [ph d os sr]. simpl.
  unfold get_session, post_heroes_body, run_create_hero. simpl.
  destruct (query_lookup "name" q) as [n|]; [|reflexivity].
  destruct (create_hero n (open_session d)) as [[e|h] s']; reflexivity.
Qed.

Lemma handle_preserves (req : Request) (srv srv' : Server) (r : Response) :
  handle req srv = (r, srv') ->
  phase srv' = phase srv /\ schema_runs srv' = schema_runs srv /\
  open_sessions srv' = open_sessions srv /\
  (hero_table (db srv) <> None -> hero_table (db srv') <> None).
Proof.
  destruct req as [|q].
  - simpl. intros [= _ <-]. auto.
  - rewrite handle_post_eq.
    destruct (query_lookup "name" q) as [n|].
    + rewrite run_create_hero_eq.
      destruct (hero_table (db srv)) as [t|] eqn:Ht.
      * destruct (has_char NUL n); [|destruct (Z.ltb int4_max (seq t));
          [|destruct (id_used t (seq t))]];
          intros [= _ <-]; simpl;
          repeat split; try reflexivity; rewrite ?Ht; discriminate.
      * intros [= _ <-]; simpl; repeat split; auto.
    + intros [= _ <-]. auto.
Qed.

(** The startup invariant: before [lifespan] has run nothing has happened;
    afterwards the schema step has run once and the table exists; no
    session is held between requests. *)
Lemma reachable_inv (srv : Server) :
  reachable srv ->
  open_sessions srv = 0%nat /\
  ((phase srv = Stopped /\ schema_runs srv = 0%nat) \/
   (phase srv <> Stopped /\ schema_runs srv = 1%nat /\ hero_table (db srv) <> None)).
Proof.
  induction 1 as [d | srv e srv' Hr [Hos IH] Hs].
  - simpl. auto.
  - destruct Hs as [srv0 Hp | srv0 Hp | srv0 req resp srv1 Hp Hh].
    + destruct IH as [[_ H0] | [Hn _]]; [|congruence].
      simpl. split; [exact Hos|]. right. rewrite H0.
      split; [discriminate|]. split; [reflexivity|].
      unfold create_db_and_tables, create_all.
      destruct (hero_table (db srv0)) eqn:E; simpl; rewrite ?E; discriminate.
    + destruct IH as [[Hs _] | [_ [H1 Ht]]]; [congruence|].
      simpl. split; [exact Hos|]. right. split; [discriminate|]. auto.
    + apply handle_preserves in Hh as [Hph [Hsr [Hos' Htab]]].
      rewrite Hph, Hsr, Hos'. split; [exact Hos|].
      destruct IH as [[Hs _] | [Hn [H1 Ht]]]; [congruence|].
      right. auto.
Qed.

(** [POST /heroes/] with a NUL-free name on a well-formed table whose
    sequence is not exhausted. *)
Lemma post_heroes_success (q : list (string * string)) (n : string)
  (srv : Server) (t : HeroTable)
  (Hq : query_lookup "name" q = Some n)
  (Ht : hero_table (db srv) = Some t) (Hwf : wf_table t)
  (Hnul : has_char NUL n = false) (Hseq : seq t <= int4_max) :
  let h := mkHero (Some (seq t)) n None ("secrete_" ++ n) in
  handle (PostHeroes q) srv =
    (Ok200 (hero_json h),
     set_db srv (mkDb (Some (mkTable (rows t ++ [h]) (seq t + 1))))) /\
  id_used t (seq t) = false.
Proof.
  cbv zeta. rewrite handle_post_eq, Hq, run_create_hero_eq, Ht, Hnul.
  assert (Hl : Z.ltb int4_max (seq t) = false) by (apply Z.ltb_ge; lia).
  rewrite Hl, (wf_seq_unused t Hwf). split; reflexivity.
Qed.

(** ** Claims *)


Definition spiderboy_server : Server :=
  mkServer Serving (mkDb (Some empty_table)) 0 1.



(** C2: when the query has no [name] parameter the request fails with the
    validation error 422, and the server (database and sessions) is left
    as it was: nothing is inserted.  Every query value is a string, so a
    present [name] is never ill-typed for [name: str]. *)
Theorem post_heroes_missing_name (q : list (string * string)) (srv : Server)
  (Hq : query_lookup "name" q = None) :
  handle (PostHeroes q) srv = (Unprocessable422, srv).
Proof. rewrite handle_post_eq, Hq. reflexivity. Qed.

Lemma post_heroes_missing_name_witness :
  query_lookup "name" [("nam", "Spiderboy")] = None /\
  handle (PostHeroes [("nam", "Spiderboy")]) spiderboy_server
    = (Unprocessable422, spiderboy_server).
Proof.
  split; [reflexivity|].
  apply post_heroes_missing_name. reflexivity.
Defined.

(** C3: [create_db_and_tables] never fails, leaves exactly one [hero]
    table, and running it twice is running it once. *)
Theorem create_db_and_tables_idempotent (d : Db) :
  create_db_and_tables (create_db_and_tables d) = create_db_and_tables d /\
  (exists t, hero_table (create_db_and_tables d) = Some t) /\
  (forall t, hero_table d = Some t -> create_db_and_tables d = d).
Proof.
  unfold create_db_and_tables, create_all.
  destruct (hero_table d) as [t|] eqn:Hd; simpl.
  - rewrite Hd. split; [reflexivity|]. split; [eauto|]. reflexivity.
  - split; [reflexivity|]. split; [eauto|]. discriminate.
Qed.




(** C5: the hero built by the handler carries no id ([id = None]); a
    returned hero's id is the value of the table's sequence at the
    successful insert, whatever the request's [name], and the stored row is
    exactly the returned record. *)
Theorem hero_id_from_storage (n : string) (d d' : Db) (h : Hero)
  (H : run_create_hero n d = (inr h, d')) :
  id (Hero_new n ("secrete_" ++ n)) = None /\
  exists t, hero_table d = Some t /\ id_used t (seq t) = false /\
    id h = Some (seq t) /\
    hero_table d' = Some (mkTable (rows t ++ [h]) (seq t + 1)).
Proof.
  split; [reflexivity|].
  rewrite run_create_hero_eq in H.
  destruct (hero_table d) as [t|]; [|discriminate].
  destruct (has_char NUL n); [discriminate|].
  destruct (Z.ltb int4_max (seq t)); [discriminate|].
  destruct (id_used t (seq t)) eqn:Hu; [discriminate|].
  injection H as <- <-. exists t. auto.
Qed.

Lemma hero_id_from_storage_witness :
  id (Hero_new "Spiderboy" ("secrete_" ++ "Spiderboy")) = None /\
  exists t, hero_table (mkDb (Some empty_table)) = Some t /\
    id_used t (seq t) = false /\
    id (mkHero (Some 1) "Spiderboy" None "secrete_Spiderboy") = Some (seq t) /\
    hero_table (mkDb (Some (mkTable [mkHero (Some 1) "Spiderboy" None "secrete_Spiderboy"] 2)))
      = Some (mkTable (rows t ++ [mkHero (Some 1) "Spiderboy" None "secrete_Spiderboy"])
                      (seq t + 1)).
Proof.
  apply (hero_id_from_storage "Spiderboy" (mkDb (Some empty_table))).
  vm_compute. reflexivity.
Defined.

(** C6: [GET /] returns [{"message": "Hello World Winnie"}] with status
    200 in every server state and changes nothing. *)
Theorem get_root_constant (srv : Server) :
  handle GetRoot srv =
    (Ok200 (JObj [("message", JStr "Hello World Winnie")]), srv).
Proof. reflexivity. Qed.

(** C7: the session acquired by [get_session] is closed again whatever the
    request does with it, whether it returns or raises: the number of open
    sessions after the dependency's scope is the number before it. *)
Theorem get_session_releases {R : Type} (body : Session -> R * Session)
  (srv : Server) :
  open_sessions (snd (get_session body srv)) = open_sessions srv.
Proof.
  unfold get_session. simpl.
  destruct (body (open_session (db srv))) as [r s']. reflexivity.
Qed.

(** The startup order seen from one state: what has run so far, and which
    moves the state allows. *)
Definition startup_order (srv : Server) : Prop :=
  (schema_runs srv <= 1)%nat /\
  (phase srv = Stopped -> schema_runs srv = 0%nat) /\
  forall e srv', step srv e srv' ->
    (phase srv = Stopped /\ e = EStartup /\
       phase srv' = SchemaEnsured /\ schema_runs srv' = 1%nat) \/
    (phase srv = SchemaEnsured /\ e = EBeginServing /\
       hero_table (db srv) <> None /\
       phase srv' = Serving /\ schema_runs srv' = 1%nat) \/
    (exists req resp, e = ERequest req resp /\
       phase srv = Serving /\ schema_runs srv = 1%nat /\
       hero_table (db srv) <> None /\
       phase srv' = Serving /\ schema_runs srv' = 1%nat).

(** C8: from the stopped server, the only moves are Stopped -> SchemaEnsured
    (running [create_db_and_tables], the first and only time), then
    SchemaEnsured -> Serving; a request is only handled in Serving, after
    the schema step has run exactly once and the table exists. *)
Theorem startup_before_requests (srv : Server) (Hr : reachable srv) :
  startup_order srv.
Proof.
  destruct (reachable_inv srv Hr) as [_ Hinv].
  split; [destruct Hinv as [[_ H] | [_ [H _]]]; rewrite H; lia|].
  split; [intros Hs; destruct Hinv as [[_ H] | [Hn _]]; [exact H | congruence]|].
  intros e srv' Hs.
  destruct Hs as [srv0 Hp | srv0 Hp | srv0 req resp srv1 Hp Hh].
  - left. destruct Hinv as [[_ H0] | [Hn _]]; [|congruence].
    simpl. rewrite H0. repeat split; auto.
  - right; left. destruct Hinv as [[Hs _] | [_ [H1 Ht]]]; [congruence|].
    simpl. repeat split; auto.
  - right; right. exists req, resp.
    destruct Hinv as [[Hs _] | [_ [H1 Ht]]]; [congruence|].
    apply handle_preserves in Hh as [Hph [Hsr _]].
    rewrite Hph, Hsr. repeat split; auto.
Qed.

Definition started_server (d : Db) : Server :=
  mkServer Serving (create_db_and_tables d) 0 1.

Lemma started_server_reachable (d : Db) : reachable (started_server d).
Proof.
  apply (reach_step (mkServer SchemaEnsured (create_db_and_tables d) 0 1)
           EBeginServing).
  - apply (reach_step (initial d) EStartup); [constructor|].
    apply step_startup. reflexivity.
  - apply step_serve. reflexivity.
Qed.

Lemma startup_before_requests_witness :
  reachable (started_server (mkDb None)) /\
  startup_order (started_server (mkDb None)).
Proof.
  split; [apply started_server_reachable|].
  apply startup_before_requests. apply started_server_reachable.
Defined.

(** C9: the [name], [secret_name] and [age] of the hero [create_hero]
    returns are functions of the [name] argument alone: two successful runs
    with the same [name] on any two databases agree on them (they are [n],
    ["secrete_" ++ n] and [None]). *)
Theorem create_hero_fields_depend_on_name (n : string) (d1 d2 d1' d2' : Db)
  (h1 h2 : Hero)
  (H1 : run_create_hero n d1 = (inr h1, d1'))
  (H2 : run_create_hero n d2 = (inr h2, d2')) :
  name h1 = name h2 /\ secret_name h1 = secret_name h2 /\ age h1 = age h2 /\
  name h1 = n /\ secret_name h1 = "secrete_" ++ n /\ age h1 = None.
Proof.
  rewrite run_create_hero_eq in H1, H2.
  destruct (hero_table d1) as [t1|]; [|discriminate].
  destruct (hero_table d2) as [t2|]; [|discriminate].
  destruct (has_char NUL n); [discriminate|].
  destruct (Z.ltb int4_max (seq t1)); [discriminate|].
  destruct (Z.ltb int4_max (seq t2)); [discriminate|].
  destruct (id_used t1 (seq t1)); [discriminate|].
  destruct (id_used t2 (seq t2)); [discriminate|].
  injection H1 as <- _. injection H2 as <- _. simpl. repeat split; reflexivity.
Qed.

Definition other_db : Db :=
  mkDb (Some (mkTable [mkHero (Some 1) "Batgirl" (Some 30) "x";
                       mkHero (Some 7) "Robin" None "y"] 8)).

Lemma create_hero_fields_depend_on_name_witness :
  name (mkHero (Some 1) "Spiderboy" None "secrete_Spiderboy")
    = name (mkHero (Some 8) "Spiderboy" None "secrete_Spiderboy") /\
  secret_name (mkHero (Some 1) "Spiderboy" None "secrete_Spiderboy")
    = secret_name (mkHero (Some 8) "Spiderboy" None "secrete_Spiderboy") /\
  age (mkHero (Some 1) "Spiderboy" None "secrete_Spiderboy")
    = age (mkHero (Some 8) "Spiderboy" None "secrete_Spiderboy") /\
  name (mkHero (Some 1) "Spiderboy" None "secrete_Spiderboy") = "Spiderboy" /\
  secret_name (mkHero (Some 1) "Spiderboy" None "secrete_Spiderboy")
    = "secrete_" ++ "Spiderboy" /\
  age (mkHero (Some 1) "Spiderboy" None "secrete_Spiderboy") = None.
Proof.
  apply (create_hero_fields_depend_on_name "Spiderboy"
           (mkDb (Some empty_table)) other_db
           (snd (run_create_hero "Spiderboy" (mkDb (Some empty_table))))
           (snd (run_create_hero "Spiderboy" other_db)));
    vm_compute; reflexivity.
Defined.

(** C10: the empty name is accepted: on a well-formed table whose int4
    sequence is not exhausted, [POST /heroes/?name=] succeeds and returns
    the hero with [name = ""] and [secret_name = "secrete_"]. *)
Theorem post_heroes_empty_name (srv : Server) (t : HeroTable)
  (Ht : hero_table (db srv) = Some t) (Hwf : wf_table t)
  (Hseq : seq t <= int4_max) :
  exists srv',
    handle (PostHeroes [("name", "")]) srv =
      (Ok200 (hero_json (mkHero (Some (seq t)) "" None "secrete_")), srv').
Proof.
  destruct (post_heroes_success [("name", "")] "" srv t eq_refl Ht Hwf
              eq_refl Hseq) as [E _].
  eexists. exact E.
Qed.

Lemma post_heroes_empty_name_witness :
  exists srv',
    handle (PostHeroes [("name", "")]) spiderboy_server =
      (Ok200 (hero_json (mkHero (Some 1) "" None "secrete_")), srv').
Proof.
  apply (post_heroes_empty_name spiderboy_server empty_table);
    [reflexivity | intros h [] | vm_compute; discriminate].
Defined.

(** ** Further properties of the code *)

Lemma append_cancel_l (p a b : string) : p ++ a = p ++ b -> a = b.
Proof. induction p as [|c p IH]; simpl; [auto | intros [= H]; auto]. Qed.

Lemma string_length_append (a b : string) :
  String.length (a ++ b) = (String.length a + String.length b)%nat.
Proof. induction a as [|c a IH]; simpl; [reflexivity | rewrite IH; reflexivity]. Qed.

Lemma string_append_assoc (a b c : string) : (a ++ b) ++ c = a ++ (b ++ c).
Proof. induction a as [|x a IH]; simpl; [reflexivity | rewrite IH; reflexivity]. Qed.

Lemma split_at_char (c : Ascii.ascii) (a b a' b' : string) :
  has_char c a = false -> has_char c a' = false ->
  a ++ String c b = a' ++ String c b' -> a = a' /\ b = b'.
Proof.
  revert a'. induction a as [|x a IH]; intros a' Ha Ha' E; destruct a' as [|y a'];
    simpl in *.
  - injection E as ->. auto.
  - injection E as -> _. rewrite Ascii.eqb_refl in Ha'. discriminate.
  - injection E as <- _. rewrite Ascii.eqb_refl in Ha. discriminate.
  - apply orb_false_iff in Ha as [_ Ha]. apply orb_false_iff in Ha' as [_ Ha'].
    injection E as <- E. destruct (IH a' Ha Ha' E) as [-> ->]. auto.
Qed.

(** X1: the connection string determines the settings when the user name
    has no [:] and the password no [@]. *)
Theorem database_url_injective (s1 s2 : Settings)
  (Hu1 : has_char ":"%char (db_username s1) = false)
  (Hu2 : has_char ":"%char (db_username s2) = false)
  (Hp1 : has_char "@"%char (db_password s1) = false)
  (Hp2 : has_char "@"%char (db_password s2) = false)
  (E : database_url s1 = database_url s2) :
  s1 = s2.
Proof.
  destruct s1 as [u1 p1 n1], s2 as [u2 p2 n2]. unfold database_url in E.
  cbn [db_username db_password db_name] in *. apply append_cancel_l in E.
  destruct (split_at_char ":"%char u1 _ u2 _ Hu1 Hu2 E) as [-> E'].
  destruct (split_at_char "@"%char p1 _ p2 _ Hp1 Hp2 E') as [-> E''].
  apply (append_cancel_l "db:5432/") in E''. subst. reflexivity.
Qed.

Lemma database_url_injective_witness :
  has_char ":"%char "winnie" = false /\ has_char ":"%char "winnie" = false /\
  has_char "@"%char "pw" = false /\ has_char "@"%char "pw" = false /\
  database_url (mkSettings "winnie" "pw" "heroes")
    = database_url (mkSettings "winnie" "pw" "heroes") /\
  mkSettings "winnie" "pw" "heroes" = mkSettings "winnie" "pw" "heroes".
Proof.
  do 5 (split; [reflexivity|]).
  apply database_url_injective; reflexivity.
Defined.

(** X2: the settings are not escaped: a [:] moved between user name and
    password gives different settings with the same connection string. *)
Theorem database_url_unescaped (u p q n : string) :
  mkSettings (u ++ ":" ++ p) q n <> mkSettings u (p ++ ":" ++ q) n /\
  database_url (mkSettings (u ++ ":" ++ p) q n)
    = database_url (mkSettings u (p ++ ":" ++ q) n).
Proof.
  split.
  - intros [= E _]. apply (f_equal String.length) in E.
    rewrite !string_length_append in E. simpl in E. lia.
  - unfold database_url. simpl. f_equal.
    rewrite !string_append_assoc. reflexivity.
Qed.

(** What one request does to the database: nothing, one [nextval] taken
    by a failed insert, or one insert of the derived hero at the sequence
    value. *)
Lemma handle_db_cases (req : Request) (srv srv' : Server) (r : Response) :
  handle req srv = (r, srv') ->
  db srv' = db srv \/
  (exists t, hero_table (db srv) = Some t /\
     db srv' = mkDb (Some (mkTable (rows t) (seq t + 1)))) \/
  exists t n, hero_table (db srv) = Some t /\ id_used t (seq t) = false /\
    r = Ok200 (hero_json (mkHero (Some (seq t)) n None ("secrete_" ++ n))) /\
    db srv' = mkDb (Some (mkTable (rows t ++ [mkHero (Some (seq t)) n None ("secrete_" ++ n)])
                                  (seq t + 1))).
Proof.
  destruct req as [|q].
  - simpl. intros [= _ <-]. auto.
  - rewrite handle_post_eq.
    destruct (query_lookup "name" q) as [n|]; [|intros [= _ <-]; auto].
    rewrite run_create_hero_eq.
    destruct srv as [ph d os sr]; simpl.
    destruct (hero_table d) as [t|] eqn:Ht; [|intros [= _ <-]; auto].
    destruct (has_char NUL n); [intros [= <- <-]; auto|].
    destruct (Z.ltb int4_max (seq t)); [intros [= <- <-]; auto|].
    destruct (id_used t (seq t)) eqn:Hu; intros [= <- <-].
    + right; left. exists t. auto.
    + right; right. exists t, n. auto.
Qed.



(** X4: no request updates or deletes a stored row: the rows before a
    request are a prefix of the rows after it, and at most one row is
    added. *)
Theorem handle_append_only (req : Request) (srv srv' : Server) (r : Response)
  (t : HeroTable) (Ht : hero_table (db srv) = Some t)
  (H : handle req srv = (r, srv')) :
  exists t' extra, hero_table (db srv') = Some t' /\
    rows t' = (rows t ++ extra)%list /\ (length extra <= 1)%nat.
Proof.
  destruct (handle_db_cases req srv srv' r H)
    as [-> | [[t0 [Ht0 ->]] | [t0 [n [Ht0 [_ [_ ->]]]]]]].
  - exists t, []. rewrite app_nil_r. auto.
  - rewrite Ht in Ht0. injection Ht0 as <-.
    exists (mkTable (rows t) (seq t + 1)), []. rewrite app_nil_r. auto.
  - rewrite Ht in Ht0. injection Ht0 as <-.
    eexists _, _. split; [reflexivity|]. split; [reflexivity|]. simpl. lia.
Qed.

Lemma handle_append_only_witness :
  exists t' extra,
    hero_table (db (snd (handle (PostHeroes [("name", "Spiderboy")]) spiderboy_server)))
      = Some t' /\
    rows t' = (rows empty_table ++ extra)%list /\ (length extra <= 1)%nat.
Proof.
  apply (handle_append_only (PostHeroes [("name", "Spiderboy")]) spiderboy_server
           _ (fst (handle (PostHeroes [("name", "Spiderboy")]) spiderboy_server))
           empty_table); reflexivity.
Defined.

Lemma NoDup_snoc {A} (l : list A) (x : A) :
  NoDup l -> ~ In x l -> NoDup (l ++ [x]).
Proof.
  induction l as [|y l IH]; simpl; intros Hd Hn.
  - constructor; [intros []|constructor].
  - inversion Hd as [|? ? Hy Hl]; subst. constructor.
    + rewrite in_app_iff. intros [Hin | [-> | []]]; [contradiction | tauto].
    + apply IH; tauto.
Qed.

Lemma table_inv_insert (t : HeroTable) (n : string) :
  table_inv t ->
  table_inv (mkTable (rows t ++ [mkHero (Some (seq t)) n None ("secrete_" ++ n)])
                     (seq t + 1)).
Proof.
  intros [Hwf [Hnd Hder]]. split; [apply wf_insert; [exact Hwf | reflexivity]|].
  split; simpl.
  - rewrite map_app. apply NoDup_snoc; [exact Hnd|].
    intros Hin. apply in_map_iff in Hin as [h [Hh Hin]].
    destruct (Hwf h Hin) as [i [Hi Hlt]]. rewrite Hh in Hi. injection Hi. lia.
  - apply Forall_app. split; [exact Hder|].
    constructor; [split; reflexivity | constructor].
Qed.

Lemma table_inv_nextval (t : HeroTable) :
  table_inv t -> table_inv (mkTable (rows t) (seq t + 1)).
Proof.
  intros [Hwf [Hnd Hder]]. split; [|split; assumption].
  intros h Hin. destruct (Hwf h Hin) as [i [Hi Hlt]]. exists i. simpl. split; [exact Hi | lia].
Qed.

Lemma table_inv_empty : table_inv empty_table.
Proof.
  split; [intros h []|]. split; constructor.
Qed.

Lemma handle_table_inv_step (req : Request) (srv srv' : Server) (r : Response)
  (t : HeroTable) (Ht : hero_table (db srv) = Some t) (Hinv : table_inv t)
  (H : handle req srv = (r, srv')) :
  exists t', hero_table (db srv') = Some t' /\ table_inv t'.
Proof.
  destruct (handle_db_cases req srv srv' r H)
    as [-> | [[t0 [Ht0 ->]] | [t0 [n [Ht0 [_ [_ ->]]]]]]].
  - exists t. auto.
  - rewrite Ht in Ht0. injection Ht0 as <-.
    eexists. split; [reflexivity|]. apply table_inv_nextval. exact Hinv.
  - rewrite Ht in Ht0. injection Ht0 as <-.
    eexists. split; [reflexivity|]. apply table_inv_insert. exact Hinv.
Qed.

(** X5: every request keeps the table invariant: every stored id comes from
    the sequence, ids are pairwise distinct, and every row has
    [secret_name = "secrete_" ++ name] and no age. *)
Theorem handle_keeps_table_inv (req : Request) (srv srv' : Server) (r : Response)
  (t : HeroTable) (Ht : hero_table (db srv) = Some t) (Hinv : table_inv t)
  (H : handle req srv = (r, srv')) :
  exists t', hero_table (db srv') = Some t' /\ table_inv t'.
Proof. exact (handle_table_inv_step req srv srv' r t Ht Hinv H). Qed.

Lemma handle_keeps_table_inv_witness :
  exists t', hero_table (db (snd (handle (PostHeroes [("name", "Spiderboy")])
                                   spiderboy_server))) = Some t' /\ table_inv t'.
Proof.
  apply (handle_keeps_table_inv (PostHeroes [("name", "Spiderboy")]) spiderboy_server
           _ (fst (handle (PostHeroes [("name", "Spiderboy")]) spiderboy_server))
           empty_table); [reflexivity | apply table_inv_empty | reflexivity].
Defined.



(** X7: a server started on a database without the [hero] table holds no
    session between requests, has no table while stopped, and from startup
    on has a table satisfying [table_inv]. *)
Theorem reachable_from_empty_inv (srv : Server)
  (Hr : reachable_from (mkDb None) srv) :
  open_sessions srv = 0%nat /\
  (phase srv = Stopped -> hero_table (db srv) = None) /\
  (phase srv <> Stopped -> exists t, hero_table (db srv) = Some t /\ table_inv t).
Proof.
  induction Hr as [| srv e srv' Hr [Hos [Hst Hrun]] Hs].
  - simpl. split; [reflexivity|]. split; [reflexivity | congruence].
  - destruct Hs as [srv0 Hp | srv0 Hp | srv0 req resp srv1 Hp Hh]; simpl.
    + split; [exact Hos|]. split; [discriminate|]. intros _.
      unfold create_db_and_tables, create_all. rewrite (Hst Hp).
      exists empty_table. split; [reflexivity | apply table_inv_empty].
    + split; [exact Hos|]. split; [discriminate|]. intros _.
      apply Hrun. congruence.
    + destruct (handle_preserves req srv0 srv1 resp Hh) as [Hph [_ [Hos' _]]].
      rewrite Hph, Hos'. split; [exact Hos|]. split; [congruence|]. intros _.
      destruct (Hrun ltac:(congruence)) as [t [Ht Hinv]].
      exact (handle_table_inv_step req srv0 srv1 resp t Ht Hinv Hh).
Qed.

Lemma started_server_reachable_from (d : Db) :
  reachable_from d (started_server d).
Proof.
  apply (rf_step d (mkServer SchemaEnsured (create_db_and_tables d) 0 1)
           EBeginServing).
  - apply (rf_step d (initial d) EStartup); [constructor|].
    apply step_startup. reflexivity.
  - apply step_serve. reflexivity.
Qed.

Lemma reachable_from_empty_inv_witness :
  reachable_from (mkDb None) (started_server (mkDb None)) /\
  open_sessions (started_server (mkDb None)) = 0%nat /\
  (phase (started_server (mkDb None)) = Stopped ->
     hero_table (db (started_server (mkDb None))) = None) /\
  (phase (started_server (mkDb None)) <> Stopped ->
     exists t, hero_table (db (started_server (mkDb None))) = Some t /\ table_inv t).
Proof.
  split; [apply started_server_reachable_from|].
  apply reachable_from_empty_inv. apply started_server_reachable_from.
Defined.

(** X8: whatever database the server starts on, no session is left open in
    any state it reaches: each request closes the session it acquired. *)
Theorem reachable_no_open_session (srv : Server) (Hr : reachable srv) :
  open_sessions srv = 0%nat.
Proof. exact (proj1 (reachable_inv srv Hr)). Qed.

Lemma reachable_no_open_session_witness :
  reachable (started_server other_db) /\ open_sessions (started_server other_db) = 0%nat.
Proof.
  split; [apply started_server_reachable|].
  apply reachable_no_open_session. apply started_server_reachable.
Defined.
